(** * Elias gamma coding: a shallow embedding of [gamma.py] and its properties

    [gamma.py] defines three functions over Python strings of the characters
    '0' and '1':
    - [gamma_encode_number], the gamma code of one positive integer;
    - [gamma_encode_list], the concatenation of the codes of a list;
    - [gamma_decode], which parses such a concatenation back into the list.

    Python integers are unbounded and are modelled by [Z].  A [str] is
    modelled by [string], a sequence of characters with code points below
    256.  Indices and counters of the decoder ([i], [zeros]) start at 0 and
    only grow, they are modelled by [nat].  The three [raise ValueError]
    statements of the file and the [ValueError] of the builtin [int] are the
    constructors of [exn]. *)

From Stdlib Require Import ZArith Lia List Bool Ascii String.
Import ListNotations.

Local Open Scope string_scope.

(** ** Exceptions and results *)

Inductive exn : Set :=
| InvalidInput     (* raised by gamma_encode_number, n <= 0 *)
| PrefixCutoff     (* raised by gamma_decode, no bit after the zeros *)
| OffsetCutoff     (* raised by gamma_decode, too few offset bits *)
| InvalidLiteral.  (* raised by int(binary, 2) *)

(** All four are [ValueError]s in Python; this is the text they carry (for
    [int] the text goes on with the quoted literal). *)
Definition message (e : exn) : string :=
  match e with
  | InvalidInput => "Gamma encoding is only defined for positive integers"
  | PrefixCutoff => "Malformed gamma stream (prefix cutoff)"
  | OffsetCutoff => "Malformed gamma stream (offset cutoff)"
  | InvalidLiteral => "invalid literal for int() with base 2"
  end.

(** What a call does: it returns a value or raises.  The [while] loops are
    run on fuel, and [OutOfFuel] is what a loop yields when the fuel is
    used up before its condition turns false. *)
Inductive outcome (A : Type) : Type :=
| Return (a : A)
| Raise (e : exn)
| OutOfFuel.

Arguments Return {A} a.
Arguments Raise {A} e.
Arguments OutOfFuel {A}.

Definition bind {A B : Type} (m : outcome A) (k : A -> outcome B) : outcome B :=
  match m with
  | Return a => k a
  | Raise e => Raise e
  | OutOfFuel => OutOfFuel
  end.

Notation "x <- m ;; k" := (bind m (fun x => k))
  (at level 61, m at next level, right associativity).
Notation "' p <- m ;; k" := (bind m (fun x => let p := x in k))
  (at level 61, p pattern, m at next level, right associativity).

(** ** The Python builtins the file uses *)

Module Py.

(** [s[lo:hi]] for [0 <= lo]; as in Python the slice is cut at the end of
    [s] and is empty when [hi <= lo]. *)
Definition slice (s : string) (lo hi : nat) : string :=
  substring lo (hi - lo) s.

(** [s[lo:]] *)
Definition slice_from (s : string) (lo : nat) : string :=
  slice s lo (String.length s).

(** [s * n] *)
Fixpoint mul (s : string) (n : nat) : string :=
  match n with
  | O => ""
  | S n' => s ++ mul s n'
  end.

(** The binary digits of a positive number, most significant first. *)
Fixpoint digits (p : positive) : string :=
  match p with
  | xH => "1"
  | xO p' => digits p' ++ "0"
  | xI p' => digits p' ++ "1"
  end.

(** [bin(n)] *)
Definition bin (n : Z) : string :=
  match n with
  | Z0 => "0b0"
  | Zpos p => "0b" ++ digits p
  | Zneg p => "-0b" ++ digits p
  end.

(** The characters [int] skips around a literal: the ASCII white space, and
    U+0085 and U+00A0, which [int] turns into spaces first. *)
Definition isspace (c : ascii) : bool :=
  let n := nat_of_ascii c in
  ((9 <=? n)%nat && (n <=? 13)%nat)
  || (n =? 32)%nat || (n =? 133)%nat || (n =? 160)%nat.

Fixpoint lstrip (s : string) : string :=
  match s with
  | String c s' => if isspace c then lstrip s' else s
  | EmptyString => s
  end.

Fixpoint all_space (s : string) : bool :=
  match s with
  | String c s' => isspace c && all_space s'
  | EmptyString => true
  end.

Definition digit2 (c : ascii) : option Z :=
  if (c =? "0")%char then Some 0%Z
  else if (c =? "1")%char then Some 1%Z
  else None.

(** The digits of a base 2 literal, with the value read so far, the number
    of digits read and whether the last character was an underscore.
    Underscores stand between two digits only; after the digits nothing but
    white space may follow. *)
Fixpoint int_digits (s : string) (acc : Z) (ndigits : nat) (underscore : bool)
  : option Z :=
  match s with
  | String c s' =>
      if (c =? "_")%char then
        if underscore then None else int_digits s' acc ndigits true
      else
        match digit2 c with
        | Some d => int_digits s' (2 * acc + d)%Z (S ndigits) false
        | None =>
            if underscore || (ndigits =? 0)%nat then None
            else if all_space s then Some acc else None
        end
  | EmptyString =>
      if underscore || (ndigits =? 0)%nat then None else Some acc
  end.

Definition int_sign (s : string) : Z * string :=
  match s with
  | String "+" s' => (1%Z, s')
  | String "-" s' => ((-1)%Z, s')
  | _ => (1%Z, s)
  end.

Definition int_prefix (s : string) : string :=
  match s with
  | String "0" (String "b" s') | String "0" (String "B" s') =>
      match s' with
      | String "_" s'' => s''
      | _ => s'
      end
  | _ => s
  end.

(** [int(s, 2)] on a string of characters with code points below 256.  On
    wider strings the builtin also reads the decimal digits and the white
    space of other scripts; [string] holds no such character. *)
Definition int2 (s : string) : outcome Z :=
  let (sign, s) := int_sign (lstrip s) in
  let s := int_prefix s in
  match s with
  | String "_" _ => Raise InvalidLiteral
  | _ =>
      match int_digits s 0 0 false with
      | Some v => Return (sign * v)%Z
      | None => Raise InvalidLiteral
      end
  end.

End Py.

(** ** gamma.py *)

Definition gamma_encode_number (n : Z) : outcome string :=
  if (n <=? 0)%Z then Raise InvalidInput
  else
    let binary := Py.slice_from (Py.bin n) 2 in
    let offset := Py.slice_from binary 1 in
    let length := String.length binary - 1 in
    let prefix := Py.mul "0" length ++ "1" in
    Return (prefix ++ offset).

(** The generator [gamma_encode_number(n) for n in nums], consumed from left
    to right by [join]: the first call that raises ends it. *)
Fixpoint encode_each (nums : list Z) : outcome (list string) :=
  match nums with
  | [] => Return []
  | n :: nums' =>
      code <- gamma_encode_number n ;;
      codes <- encode_each nums' ;;
      Return (code :: codes)
  end.

Definition gamma_encode_list (nums : list Z) : outcome string :=
  codes <- encode_each nums ;;
  Return (String.concat "" codes).

(** The inner loop [while i < len(stream) and stream[i] == "0"]; it yields
    the final [i] and [zeros]. *)
Fixpoint count_zeros (fuel : nat) (stream : string) (i zeros : nat)
  : outcome (nat * nat) :=
  match fuel with
  | O => OutOfFuel
  | S fuel' =>
      if (i <? String.length stream)%nat &&
         match get i stream with
         | Some c => (c =? "0")%char
         | None => false
         end
      then count_zeros fuel' stream (i + 1) (zeros + 1)
      else Return (i, zeros)
  end.

(** The outer loop [while i < len(stream)], from the state [i], [decoded]. *)
Fixpoint decode_loop (fuel : nat) (stream : string) (i : nat)
  (decoded : list Z) : outcome (list Z) :=
  match fuel with
  | O => OutOfFuel
  | S fuel' =>
      if (i <? String.length stream)%nat then
        '(i, zeros) <- count_zeros (S (String.length stream)) stream i 0 ;;
        if (String.length stream <=? i)%nat then Raise PrefixCutoff
        else
          let i := i + 1 in
          if (String.length stream <? i + zeros)%nat then Raise OffsetCutoff
          else
            let offset := Py.slice stream i (i + zeros) in
            let i := i + zeros in
            let binary := "1" ++ offset in
            x <- Py.int2 binary ;;
            decode_loop fuel' stream i (decoded ++ [x])%list
      else Return decoded
  end.

Definition gamma_decode (stream : string) : outcome (list Z) :=
  decode_loop (S (String.length stream)) stream 0 [].

(** ** Notions the statements use *)

(** A string over the characters '0' and '1'. *)
Fixpoint is_bits (s : string) : bool :=
  match s with
  | String c s' => ((c =? "0")%char || (c =? "1")%char) && is_bits s'
  | EmptyString => true
  end.

(** The digits of [p] after its leading 1. *)
Fixpoint tail_digits (p : positive) : string :=
  match p with
  | xH => ""
  | xO p' => tail_digits p' ++ "0"
  | xI p' => tail_digits p' ++ "1"
  end.

(** The number whose binary digits are those of [q] followed by the bits
    [s]. *)
Fixpoint pos_value (q : positive) (s : string) : positive :=
  match s with
  | String c s' => pos_value (if (c =? "0")%char then xO q else xI q) s'
  | EmptyString => q
  end.

(** The gamma code of [p], as the source assembles it. *)
Definition code (p : positive) : string :=
  Py.mul "0" (String.length (tail_digits p)) ++ String "1" (tail_digits p).

Definition bit_char (b : bool) : ascii := if b then "1"%char else "0"%char.

(** The [k] low-order bits of [x], the most significant first. *)
Fixpoint low_bits (x : Z) (k : nat) : string :=
  match k with
  | O => ""
  | S k' => String (bit_char (Z.testbit x (Z.of_nat k'))) (low_bits x k')
  end.

(** [k] zero bits. *)
Definition zero_bits (k : nat) : string :=
  string_of_list_ascii (List.repeat "0"%char k).

(** The gamma code as the specification words it: with [N] the number of
    binary digits of [x], that is [floor(log2 x) + 1], the code is [N - 1]
    zero bits, a one bit, and the [N - 1] low-order bits of [x].  Nothing
    here is taken from the encoder: the zeros are [zero_bits], the bits are
    read with [Z.testbit]. *)
Definition gamma_code_spec (x : Z) : string :=
  let N := (Z.log2 x + 1)%Z in
  zero_bits (Z.to_nat (N - 1)) ++ "1" ++ low_bits x (Z.to_nat (N - 1)).

(** [s] does not begin with the character '0'. *)
Definition zero_free_head (s : string) : Prop :=
  match s with
  | String c _ => c <> "0"%char
  | EmptyString => True
  end.

(** The streams the decoder accepts, with what it returns for them: a
    stream is a sequence of groups, each made of [n] zeros, one character
    that is not '0', and [n] more characters that [int] reads, after a
    leading "1", as the number [x]. *)
Inductive parses : string -> list Z -> Prop :=
| parses_nil : parses "" []
| parses_cons (n : nat) (c : ascii) (off rest : string) (x : Z) (l : list Z) :
    c <> "0"%char ->
    String.length off = n ->
    Py.int2 ("1" ++ off) = Return x ->
    parses rest l ->
    parses (Py.mul "0" n ++ String c (off ++ rest)) (x :: l).

(** ** Strings *)

Section Strings.

Lemma append_nil_r (s : string) : s ++ "" = s.
Proof. induction s as [|c s IH]; simpl; [reflexivity | now rewrite IH]. Qed.

Lemma append_assoc (a b c : string) : (a ++ b) ++ c = a ++ (b ++ c).
Proof. induction a as [|x a IH]; simpl; [reflexivity | now rewrite IH]. Qed.

Lemma length_append (a b : string) :
  String.length (a ++ b) = String.length a + String.length b.
Proof. induction a as [|x a IH]; simpl; [reflexivity | now rewrite IH]. Qed.

Lemma get_append_r (a b : string) (k : nat) :
  get (String.length a + k) (a ++ b) = get k b.
Proof. induction a as [|x a IH]; simpl; [reflexivity | exact IH]. Qed.

Lemma get_length_append (a : string) (c : ascii) (b : string) :
  get (String.length a) (a ++ String c b) = Some c.
Proof.
  rewrite <- (Nat.add_0_r (String.length a)), get_append_r. reflexivity.
Qed.

Lemma substring_append_r (a b : string) (k m : nat) :
  substring (String.length a + k) m (a ++ b) = substring k m b.
Proof. induction a as [|x a IH]; simpl; [reflexivity | exact IH]. Qed.

Lemma substring_0_append (a b : string) :
  substring 0 (String.length a) (a ++ b) = a.
Proof.
  induction a as [|x a IH]; simpl.
  - now destruct b.
  - now rewrite IH.
Qed.

Lemma substring_0_length (s : string) : substring 0 (String.length s) s = s.
Proof.
  rewrite <- (append_nil_r s) at 2. apply substring_0_append.
Qed.

Lemma slice_append (a b c : string) :
  Py.slice (a ++ b ++ c) (String.length a) (String.length a + String.length b)
  = b.
Proof.
  unfold Py.slice.
  replace (String.length a + String.length b - String.length a)
    with (String.length b) by lia.
  rewrite <- (Nat.add_0_r (String.length a)) at 1.
  rewrite substring_append_r. apply substring_0_append.
Qed.

Lemma slice_from_1 (c : ascii) (s : string) :
  Py.slice_from (String c s) 1 = s.
Proof.
  unfold Py.slice_from, Py.slice. simpl.
  rewrite Nat.sub_0_r. apply substring_0_length.
Qed.

Lemma length_mul_0 (n : nat) : String.length (Py.mul "0" n) = n.
Proof. induction n as [|n IH]; simpl; [reflexivity | now rewrite IH]. Qed.

Lemma mul_0_succ_r (n : nat) : Py.mul "0" (S n) = Py.mul "0" n ++ "0".
Proof. induction n as [|n IH]; [reflexivity|]. simpl in *. now rewrite IH. Qed.

Lemma split_at (s : string) (n : nat) :
  n <= String.length s ->
  exists a b, s = a ++ b /\ String.length a = n.
Proof.
  revert n. induction s as [|c s IH]; intros [|n] Hn; simpl in Hn.
  - now exists "", "".
  - lia.
  - now exists "", (String c s).
  - destruct (IH n) as (a & b & -> & <-); [lia|].
    now exists (String c a), b.
Qed.

Lemma zeros_then_rest (s : string) :
  exists n t, s = Py.mul "0" n ++ t /\ zero_free_head t.
Proof.
  induction s as [|c s (n & t & -> & Ht)].
  - now exists 0, "".
  - destruct (Ascii.eqb_spec c "0") as [->|Hc].
    + now exists (S n), t.
    + now exists 0, (String c (Py.mul "0" n ++ t)).
Qed.

Lemma concat_cons (x : string) (l : list string) :
  String.concat "" (x :: l) = x ++ String.concat "" l.
Proof.
  destruct l as [|y l]; simpl; [now rewrite append_nil_r | reflexivity].
Qed.

Lemma is_bits_append (a b : string) :
  is_bits (a ++ b) = is_bits a && is_bits b.
Proof.
  induction a as [|c a IH]; simpl; [reflexivity|].
  now rewrite IH, andb_assoc.
Qed.

Lemma is_bits_mul_0 (n : nat) : is_bits (Py.mul "0" n) = true.
Proof. induction n; simpl; auto. Qed.

Lemma prefix_append (a b : string) : String.prefix a (a ++ b) = true.
Proof.
  induction a as [|c a IH]; simpl.
  - now destruct b.
  - destruct (ascii_dec c c); [exact IH | congruence].
Qed.

Lemma prefix_inv (a s : string) :
  String.prefix a s = true -> exists b, s = a ++ b.
Proof.
  revert s. induction a as [|c a IH]; intros s H.
  - now exists s.
  - destruct s as [|d s]; simpl in H; [discriminate|].
    destruct (ascii_dec c d) as [->|]; [|discriminate].
    destruct (IH s H) as [b ->]. now exists b.
Qed.

End Strings.

(** ** Binary digits: [bin] and [int] *)

Section Digits.

Lemma digits_tail (p : positive) : Py.digits p = String "1" (tail_digits p).
Proof. induction p as [p IH|p IH|]; simpl; now rewrite ?IH. Qed.

Lemma is_bits_tail_digits (p : positive) : is_bits (tail_digits p) = true.
Proof.
  induction p as [p IH|p IH|]; simpl; rewrite ?is_bits_append, ?IH; reflexivity.
Qed.

Lemma length_tail_digits (p : positive) :
  Z.of_nat (String.length (tail_digits p)) = Z.log2 (Zpos p).
Proof.
  induction p as [p IH|p IH|]; [| |reflexivity]; simpl tail_digits;
    rewrite length_append, Nat2Z.inj_add, IH;
    change (Z.of_nat (String.length _)) with 1%Z.
  - rewrite Pos2Z.inj_xI, Z.log2_succ_double; lia.
  - rewrite Pos2Z.inj_xO, Z.log2_double; lia.
Qed.

Lemma pos_value_append (q : positive) (a b : string) :
  pos_value q (a ++ b) = pos_value (pos_value q a) b.
Proof. revert q. induction a as [|c a IH]; intro q; simpl; auto. Qed.

Lemma pos_value_tail_digits (p : positive) : pos_value 1 (tail_digits p) = p.
Proof.
  induction p as [p IH|p IH|]; simpl; rewrite ?pos_value_append, ?IH;
    reflexivity.
Qed.

Lemma digits_pos_value (q : positive) (s : string) :
  is_bits s = true -> Py.digits (pos_value q s) = Py.digits q ++ s.
Proof.
  revert q. induction s as [|c s IH]; intros q H; simpl in *.
  - now rewrite append_nil_r.
  - apply andb_prop in H. destruct H as [Hc Hs].
    rewrite (IH _ Hs).
    destruct (Ascii.eqb_spec c "0") as [->|H0]; simpl.
    + now rewrite append_assoc.
    + destruct (Ascii.eqb_spec c "1") as [->|H1]; [|discriminate].
      now rewrite append_assoc.
Qed.

Lemma tail_digits_pos_value (s : string) :
  is_bits s = true -> tail_digits (pos_value 1 s) = s.
Proof.
  intro H. pose proof (digits_pos_value 1 s H) as E.
  rewrite digits_tail in E. simpl in E. congruence.
Qed.

(** [int] on a literal that begins with the digit 1. *)
Lemma int2_1 (off : string) :
  Py.int2 (String "1" off) =
  match Py.int_digits off 1 1 false with
  | Some v => Return v
  | None => Raise InvalidLiteral
  end.
Proof.
  unfold Py.int2. simpl. destruct (Py.int_digits off 1 1 false) as [v|].
  - f_equal. destruct v; reflexivity.
  - reflexivity.
Qed.

Lemma int_digits_bits (a : string) (q : positive) (nd : nat) :
  is_bits a = true ->
  Py.int_digits a (Zpos q) (S nd) false = Some (Zpos (pos_value q a)).
Proof.
  revert q nd. induction a as [|c a IH]; intros q nd H; simpl in *.
  - reflexivity.
  - apply andb_prop in H. destruct H as [Hc Hs].
    destruct (Ascii.eqb_spec c "0") as [->|H0]; simpl.
    + apply (IH (xO q)), Hs.
    + destruct (Ascii.eqb_spec c "1") as [->|H1]; [|discriminate].
      simpl. apply (IH (xI q)), Hs.
Qed.

Lemma int2_bits (off : string) :
  is_bits off = true ->
  Py.int2 ("1" ++ off) = Return (Zpos (pos_value 1 off)).
Proof.
  intro H. change ("1" ++ off) with (String "1" off).
  now rewrite int2_1, int_digits_bits.
Qed.

(** Whatever follows the digits read so far, the value does not shrink. *)
Lemma int_digits_lower (s : string) (acc : Z) (nd : nat) (u : bool) (v : Z) :
  (1 <= acc)%Z -> Py.int_digits s acc nd u = Some v -> (1 <= v)%Z.
Proof.
  revert acc nd u. induction s as [|c s IH]; intros acc nd u Hacc H;
    cbn [Py.int_digits] in H.
  - destruct (u || (nd =? 0)%nat); congruence.
  - destruct (c =? "_")%char.
    + destruct u; [discriminate|]. now apply IH in H.
    + unfold Py.digit2 in H.
      destruct (c =? "0")%char; [apply IH in H; lia|].
      destruct (c =? "1")%char; [apply IH in H; lia|].
      destruct (u || (nd =? 0)%nat); [discriminate|].
      match type of H with
      | (if ?b then _ else _) = _ => destruct b; congruence
      end.
Qed.

End Digits.

(** ** The encoder *)

Section Encoder.

Lemma bin_slice (p : positive) : Py.slice_from (Py.bin (Zpos p)) 2 = Py.digits p.
Proof.
  unfold Py.slice_from, Py.slice. simpl.
  rewrite Nat.sub_0_r. apply substring_0_length.
Qed.

Lemma gamma_encode_number_pos (p : positive) :
  gamma_encode_number (Zpos p) = Return (code p).
Proof.
  unfold gamma_encode_number, code.
  change (Z.pos p <=? 0)%Z with false. cbv iota zeta.
  rewrite bin_slice, digits_tail, slice_from_1.
  cbn [String.length]. rewrite Nat.sub_succ, Nat.sub_0_r, append_assoc.
  reflexivity.
Qed.

Lemma gamma_encode_number_nonpos (n : Z) :
  (n <= 0)%Z -> gamma_encode_number n = Raise InvalidInput.
Proof.
  intro H. unfold gamma_encode_number.
  now destruct (Z.leb_spec n 0); [|lia].
Qed.

Lemma encode_each_pos (ps : list positive) :
  encode_each (map Zpos ps) = Return (map code ps).
Proof.
  induction ps as [|p ps IH]; [reflexivity|].
  cbn [map encode_each]. now rewrite gamma_encode_number_pos, IH.
Qed.

Lemma gamma_encode_list_pos (ps : list positive) :
  gamma_encode_list (map Zpos ps) = Return (String.concat "" (map code ps)).
Proof. unfold gamma_encode_list. now rewrite encode_each_pos. Qed.

Lemma positives (l : list Z) :
  Forall (fun x => 1 <= x)%Z l -> exists ps, l = map Zpos ps.
Proof.
  induction 1 as [|x l Hx _ [ps ->]].
  - now exists [].
  - destruct x as [|p|p]; try lia. now exists (p :: ps).
Qed.

Lemma length_code (p : positive) :
  Z.of_nat (String.length (code p)) = (2 * Z.log2 (Zpos p) + 1)%Z.
Proof.
  unfold code. rewrite length_append, length_mul_0. cbn [String.length].
  rewrite <- length_tail_digits. lia.
Qed.

Lemma is_bits_code (p : positive) : is_bits (code p) = true.
Proof.
  unfold code. rewrite is_bits_append, is_bits_mul_0. simpl.
  apply is_bits_tail_digits.
Qed.

End Encoder.

(** ** The decoder *)

Section Decoder.

(** The inner loop stops on the first character that is not '0', or at the
    end of the stream. *)
Lemma count_zeros_run (n fuel : nat) (pre t : string) (z : nat) :
  n < fuel -> zero_free_head t ->
  count_zeros fuel (pre ++ Py.mul "0" n ++ t) (String.length pre) z
  = Return (String.length pre + n, z + n).
Proof.
  revert fuel pre z. induction n as [|n IH]; intros [|fuel] pre z Hf Ht;
    try lia; cbn [count_zeros Py.mul].
  - change ("" ++ t) with t. rewrite !Nat.add_0_r.
    destruct t as [|c t].
    + rewrite append_nil_r, Nat.ltb_irrefl. reflexivity.
    + rewrite get_length_append.
      apply Ascii.eqb_neq in Ht. rewrite Ht, andb_false_r. reflexivity.
  - change (("0" ++ Py.mul "0" n) ++ t) with (String "0" (Py.mul "0" n ++ t)).
    rewrite get_length_append, Ascii.eqb_refl, andb_true_r.
    rewrite length_append. cbn [String.length].
    replace (String.length pre <? _)%nat with true
      by (symmetry; apply Nat.ltb_lt; lia).
    change (String "0" (Py.mul "0" n ++ t)) with ("0" ++ Py.mul "0" n ++ t).
    rewrite <- (append_assoc pre "0").
    replace (String.length pre + 1) with (String.length (pre ++ "0"))
      by (rewrite length_append; reflexivity).
    rewrite IH by (lia || assumption).
    rewrite length_append. cbn [String.length]. f_equal. f_equal; lia.
Qed.

(** One round of the outer loop on a complete group. *)
Lemma decode_loop_step (fuel : nat) (pre : string) (n : nat) (c : ascii)
  (off rest : string) (acc : list Z) :
  c <> "0"%char -> String.length off = n ->
  decode_loop (S fuel) (pre ++ Py.mul "0" n ++ String c (off ++ rest))
    (String.length pre) acc
  = x <- Py.int2 ("1" ++ off) ;;
    decode_loop fuel ((pre ++ Py.mul "0" n ++ String c off) ++ rest)
      (String.length (pre ++ Py.mul "0" n ++ String c off)) (acc ++ [x])%list.
Proof.
  intros Hc Hoff.
  assert (E : (pre ++ Py.mul "0" n ++ String c off) ++ rest
              = pre ++ Py.mul "0" n ++ String c (off ++ rest))
    by (now rewrite !append_assoc).
  rewrite E. clear E.
  set (stream := pre ++ Py.mul "0" n ++ String c (off ++ rest)).
  assert (Hlen : String.length stream
                 = String.length pre + n + 1 + n + String.length rest).
  { unfold stream. rewrite !length_append, length_mul_0.
    cbn [String.length]. rewrite length_append. lia. }
  assert (Hi : String.length (pre ++ Py.mul "0" n ++ String c off)
               = String.length pre + n + 1 + n).
  { rewrite !length_append, length_mul_0. cbn [String.length]. lia. }
  assert (Hcz : count_zeros (S (String.length stream)) stream
                  (String.length pre) 0 = Return (String.length pre + n, n)).
  { unfold stream at 2. rewrite count_zeros_run; [reflexivity | lia | exact Hc]. }
  assert (Hsl : Py.slice stream (String.length pre + n + 1)
                  (String.length pre + n + 1 + n) = off).
  { unfold stream. subst n.
    replace (pre ++ Py.mul "0" (String.length off) ++ String c (off ++ rest))
      with ((pre ++ Py.mul "0" (String.length off) ++ String c "")
            ++ off ++ rest)
      by (rewrite !append_assoc; reflexivity).
    replace (String.length pre + String.length off + 1)
      with (String.length (pre ++ Py.mul "0" (String.length off) ++ String c ""))
      by (rewrite !length_append, length_mul_0; cbn [String.length]; lia).
    apply slice_append. }
  cbn [decode_loop]. rewrite Hcz. cbn [bind]. cbv beta iota zeta.
  replace (String.length pre <? String.length stream)%nat with true
    by (symmetry; apply Nat.ltb_lt; lia).
  replace (String.length stream <=? String.length pre + n)%nat with false
    by (symmetry; apply Nat.leb_gt; lia).
  replace (String.length stream <? String.length pre + n + 1 + n)%nat with false
    by (symmetry; apply Nat.ltb_ge; lia).
  rewrite Hsl, Hi. reflexivity.
Qed.

(** The stream ends in zeros. *)
Lemma decode_loop_prefix_cutoff (fuel : nat) (pre : string) (n : nat)
  (acc : list Z) :
  0 < n ->
  decode_loop (S fuel) (pre ++ Py.mul "0" n) (String.length pre) acc
  = Raise PrefixCutoff.
Proof.
  intro Hn. set (stream := pre ++ Py.mul "0" n).
  assert (Hlen : String.length stream = String.length pre + n)
    by (unfold stream; now rewrite length_append, length_mul_0).
  assert (Hcz : count_zeros (S (String.length stream)) stream
                  (String.length pre) 0 = Return (String.length pre + n, n)).
  { unfold stream at 2. rewrite <- (append_nil_r (Py.mul "0" n)).
    rewrite count_zeros_run; [reflexivity | lia | exact I]. }
  cbn [decode_loop]. rewrite Hcz. cbn [bind]. cbv beta iota zeta.
  replace (String.length pre <? String.length stream)%nat with true
    by (symmetry; apply Nat.ltb_lt; lia).
  replace (String.length stream <=? String.length pre + n)%nat with true
    by (symmetry; apply Nat.leb_le; lia).
  reflexivity.
Qed.

(** Fewer characters than zeros follow the terminator. *)
Lemma decode_loop_offset_cutoff (fuel : nat) (pre : string) (n : nat)
  (c : ascii) (rest : string) (acc : list Z) :
  c <> "0"%char -> String.length rest < n ->
  decode_loop (S fuel) (pre ++ Py.mul "0" n ++ String c rest)
    (String.length pre) acc
  = Raise OffsetCutoff.
Proof.
  intros Hc Hn. set (stream := pre ++ Py.mul "0" n ++ String c rest).
  assert (Hlen : String.length stream
                 = String.length pre + n + 1 + String.length rest).
  { unfold stream. rewrite !length_append, length_mul_0.
    cbn [String.length]. lia. }
  assert (Hcz : count_zeros (S (String.length stream)) stream
                  (String.length pre) 0 = Return (String.length pre + n, n)).
  { unfold stream at 2. rewrite count_zeros_run; [reflexivity | lia | exact Hc]. }
  cbn [decode_loop]. rewrite Hcz. cbn [bind]. cbv beta iota zeta.
  replace (String.length pre <? String.length stream)%nat with true
    by (symmetry; apply Nat.ltb_lt; lia).
  replace (String.length stream <=? String.length pre + n)%nat with false
    by (symmetry; apply Nat.leb_gt; lia).
  replace (String.length stream <? String.length pre + n + 1 + n)%nat with true
    by (symmetry; apply Nat.ltb_lt; lia).
  reflexivity.
Qed.

(** The index has reached the end of the stream. *)
Lemma decode_loop_end (fuel : nat) (stream : string) (acc : list Z) :
  decode_loop (S fuel) stream (String.length stream) acc = Return acc.
Proof. cbn [decode_loop]. now rewrite Nat.ltb_irrefl. Qed.

End Decoder.

(** ** What the decoder accepts *)

Section Parses.

Lemma int2_fuel (s : string) : Py.int2 s <> OutOfFuel.
Proof.
  unfold Py.int2. destruct (Py.int_sign (Py.lstrip s)) as [sign t].
  destruct (Py.int_prefix t) as [|c t'].
  - destruct (Py.int_digits "" 0 0 false); discriminate.
  - destruct (c =? "_")%char eqn:E.
    + apply Ascii.eqb_eq in E. subst c. discriminate.
    + assert (Hc : c <> "_"%char) by now apply Ascii.eqb_neq.
      destruct (Py.int_digits (String c t') 0 0 false);
        destruct c as [[] [] [] [] [] [] [] []]; try discriminate;
        congruence.
Qed.

Lemma decode_loop_parses (suf : string) (l : list Z) :
  parses suf l ->
  forall (pre : string) (acc : list Z) (fuel : nat),
    String.length suf < fuel ->
    decode_loop fuel (pre ++ suf) (String.length pre) acc
    = Return (acc ++ l)%list.
Proof.
  induction 1 as [|n c off rest x l Hc Hoff Hint _ IH];
    intros pre acc [|fuel] Hf; try (cbn [String.length] in Hf; lia).
  - rewrite append_nil_r, decode_loop_end, app_nil_r. reflexivity.
  - rewrite decode_loop_step, Hint by assumption. cbn [bind].
    rewrite IH, <- app_assoc; [reflexivity|].
    rewrite !length_append in Hf. cbn [String.length] in Hf.
    rewrite length_append in Hf. lia.
Qed.

Lemma decode_loop_inv (fuel : nat) :
  forall (pre suf : string) (acc l : list Z),
    decode_loop fuel (pre ++ suf) (String.length pre) acc = Return l ->
    exists l', l = (acc ++ l')%list /\ parses suf l'.
Proof.
  induction fuel as [|fuel IH]; intros pre suf acc l H; [discriminate|].
  destruct (zeros_then_rest suf) as (n & t & -> & Ht).
  destruct t as [|c rest].
  - rewrite append_nil_r in H. destruct n as [|n].
    + cbn [Py.mul] in H. rewrite append_nil_r, decode_loop_end in H.
      injection H as <-. exists []. rewrite app_nil_r.
      split; [reflexivity | constructor].
    + rewrite decode_loop_prefix_cutoff in H by lia. discriminate.
  - cbn [zero_free_head] in Ht.
    destruct (Nat.lt_ge_cases (String.length rest) n) as [Hlt|Hge].
    + rewrite decode_loop_offset_cutoff in H by assumption. discriminate.
    + destruct (split_at rest n Hge) as (off & rest' & -> & Hoff).
      rewrite decode_loop_step in H by assumption.
      destruct (Py.int2 ("1" ++ off)) as [x| |] eqn:Hint;
        cbn [bind] in H; try discriminate.
      apply IH in H. destruct H as (l' & -> & Hp).
      exists (x :: l'). rewrite <- app_assoc. split; [reflexivity|].
      now apply parses_cons.
Qed.

Lemma decode_loop_total (fuel : nat) :
  forall (pre suf : string) (acc : list Z),
    String.length suf < fuel ->
    decode_loop fuel (pre ++ suf) (String.length pre) acc <> OutOfFuel.
Proof.
  induction fuel as [|fuel IH]; intros pre suf acc Hf; [lia|].
  destruct (zeros_then_rest suf) as (n & t & -> & Ht).
  destruct t as [|c rest].
  - rewrite append_nil_r. destruct n as [|n].
    + cbn [Py.mul]. rewrite append_nil_r, decode_loop_end. discriminate.
    + rewrite decode_loop_prefix_cutoff by lia. discriminate.
  - cbn [zero_free_head] in Ht.
    destruct (Nat.lt_ge_cases (String.length rest) n) as [Hlt|Hge].
    + rewrite decode_loop_offset_cutoff by assumption. discriminate.
    + destruct (split_at rest n Hge) as (off & rest' & -> & Hoff).
      rewrite decode_loop_step by assumption.
      destruct (Py.int2 ("1" ++ off)) as [x| |] eqn:Hint; cbn [bind].
      * apply IH. rewrite !length_append in Hf. cbn [String.length] in Hf.
        rewrite length_append in Hf. lia.
      * discriminate.
      * now apply int2_fuel in Hint.
Qed.

(** [gamma_decode] returns [l] for the stream [s] exactly when [s] parses
    as [l]. *)
Lemma gamma_decode_parses (s : string) (l : list Z) :
  gamma_decode s = Return l <-> parses s l.
Proof.
  unfold gamma_decode. split; intro H.
  - apply (decode_loop_inv _ "" s [] l) in H.
    now destruct H as (l' & -> & H).
  - apply (decode_loop_parses s l H "" []). lia.
Qed.

(** The fuel [gamma_decode] gives its loops is enough on every stream. *)
Lemma gamma_decode_total (s : string) : gamma_decode s <> OutOfFuel.
Proof. apply (decode_loop_total _ "" s []). lia. Qed.

Lemma parses_code (p : positive) (rest : string) (l : list Z) :
  parses rest l -> parses (code p ++ rest) (Zpos p :: l).
Proof.
  intro H. unfold code. rewrite append_assoc.
  change (String "1" (tail_digits p) ++ rest)
    with (String "1" (tail_digits p ++ rest)).
  apply parses_cons; [discriminate | reflexivity | | exact H].
  now rewrite int2_bits, pos_value_tail_digits by apply is_bits_tail_digits.
Qed.

Lemma parses_codes (ps : list positive) :
  parses (String.concat "" (map code ps)) (map Zpos ps).
Proof.
  induction ps as [|p ps IH]; [constructor|].
  cbn [map]. rewrite concat_cons. now apply parses_code.
Qed.

Lemma parses_bits (s : string) (l : list Z) :
  parses s l -> is_bits s = true ->
  exists ps, l = map Zpos ps /\ s = String.concat "" (map code ps).
Proof.
  induction 1 as [|n c off rest x l Hc Hoff Hint _ IH]; intro Hb.
  - now exists [].
  - rewrite is_bits_append in Hb. cbn [is_bits] in Hb.
    rewrite is_bits_append in Hb.
    apply andb_prop in Hb. destruct Hb as [_ Hb].
    apply andb_prop in Hb. destruct Hb as [Hc' Hb].
    apply andb_prop in Hb. destruct Hb as [Ho Hr].
    apply Ascii.eqb_neq in Hc. rewrite Hc in Hc'. cbn [orb] in Hc'.
    apply Ascii.eqb_eq in Hc'. subst c.
    destruct (IH Hr) as (ps & -> & ->).
    rewrite int2_bits in Hint by exact Ho. injection Hint as <-.
    exists (pos_value 1 off :: ps). split; [reflexivity|].
    cbn [map]. rewrite concat_cons. unfold code.
    rewrite tail_digits_pos_value, Hoff, append_assoc by exact Ho.
    reflexivity.
Qed.

Lemma parses_lower (s : string) (l : list Z) :
  parses s l -> Forall (fun x => 1 <= x)%Z l.
Proof.
  induction 1 as [|n c off rest x l Hc Hoff Hint _ IH]; constructor;
    [|exact IH].
  change ("1" ++ off) with (String "1" off) in Hint.
  rewrite int2_1 in Hint.
  destruct (Py.int_digits off 1 1 false) as [v|] eqn:E; [|discriminate].
  injection Hint as <-. now apply int_digits_lower in E.
Qed.

End Parses.

(** ** The specification's wording of the code *)

Section Spec.

Lemma low_bits_xO (p : positive) (k : nat) :
  low_bits (Zpos p~0) (S k) = low_bits (Zpos p) k ++ "0".
Proof.
  induction k as [|k IH]; [reflexivity|].
  change (low_bits (Zpos p~0) (S (S k)))
    with (String (bit_char (Z.testbit (Zpos p~0) (Z.of_nat (S k))))
            (low_bits (Zpos p~0) (S k))).
  rewrite IH, Nat2Z.inj_succ, Pos2Z.inj_xO, Z.testbit_even_succ by lia.
  reflexivity.
Qed.

Lemma low_bits_xI (p : positive) (k : nat) :
  low_bits (Zpos p~1) (S k) = low_bits (Zpos p) k ++ "1".
Proof.
  induction k as [|k IH]; [reflexivity|].
  change (low_bits (Zpos p~1) (S (S k)))
    with (String (bit_char (Z.testbit (Zpos p~1) (Z.of_nat (S k))))
            (low_bits (Zpos p~1) (S k))).
  rewrite IH, Nat2Z.inj_succ, Pos2Z.inj_xI, Z.testbit_odd_succ by lia.
  reflexivity.
Qed.

Lemma tail_digits_low_bits (p : positive) :
  tail_digits p = low_bits (Zpos p) (String.length (tail_digits p)).
Proof.
  induction p as [p IH|p IH|]; [| |reflexivity]; cbn [tail_digits];
    rewrite length_append, Nat.add_1_r.
  - now rewrite low_bits_xI, <- IH.
  - now rewrite low_bits_xO, <- IH.
Qed.

Lemma mul_0_zero_bits (n : nat) : Py.mul "0" n = zero_bits n.
Proof.
  unfold zero_bits. induction n as [|n IH]; [reflexivity|].
  cbn [Py.mul List.repeat string_of_list_ascii]. now rewrite <- IH.
Qed.

Lemma code_spec (p : positive) : code p = gamma_code_spec (Zpos p).
Proof.
  unfold gamma_code_spec, code. cbv zeta.
  rewrite <- length_tail_digits.
  replace (Z.of_nat (String.length (tail_digits p)) + 1 - 1)%Z
    with (Z.of_nat (String.length (tail_digits p))) by lia.
  rewrite Nat2Z.id, <- tail_digits_low_bits, mul_0_zero_bits. reflexivity.
Qed.

Lemma zeros_one_inj (n m : nat) (u v : string) :
  Py.mul "0" n ++ String "1" u = Py.mul "0" m ++ String "1" v ->
  n = m /\ u = v.
Proof.
  revert m. induction n as [|n IH]; intros [|m] E; cbn in E; try discriminate.
  - injection E as ->. now split.
  - injection E as E. apply IH in E. destruct E as [-> ->]. now split.
Qed.

(** No code is the beginning of the code of another number. *)
Lemma code_inj_prefix (p q : positive) (b : string) :
  code q = code p ++ b -> p = q.
Proof.
  unfold code. rewrite append_assoc.
  change (String "1" (tail_digits p) ++ b)
    with (String "1" (tail_digits p ++ b)).
  intro E. apply zeros_one_inj in E. destruct E as [En Et].
  assert (Hb : String.length b = 0).
  { apply (f_equal String.length) in Et. rewrite length_append in Et. lia. }
  destruct b; [|discriminate].
  rewrite append_nil_r in Et.
  rewrite <- (pos_value_tail_digits p), <- (pos_value_tail_digits q).
  now rewrite Et.
Qed.

End Spec.

(** ** Lemmas shared by the properties below *)

Section Shared.

Lemma encode_then_decode (ps : list positive) :
  gamma_decode (String.concat "" (map code ps)) = Return (map Zpos ps).
Proof. apply gamma_decode_parses, parses_codes. Qed.

Lemma decode_then_encode (s : string) (l : list Z) :
  is_bits s = true -> gamma_decode s = Return l ->
  gamma_encode_list l = Return s.
Proof.
  intros Hb H. apply gamma_decode_parses in H.
  destruct (parses_bits s l H Hb) as (ps & -> & ->).
  apply gamma_encode_list_pos.
Qed.

(** From its index on, the outer loop does not look at what lies before. *)
Lemma decode_loop_suffix (fuel : nat) :
  forall (pre pre' suf : string) (acc : list Z),
    decode_loop fuel (pre ++ suf) (String.length pre) acc
    = decode_loop fuel (pre' ++ suf) (String.length pre') acc.
Proof.
  induction fuel as [|fuel IH]; intros pre pre' suf acc; [reflexivity|].
  destruct (zeros_then_rest suf) as (n & t & -> & Ht).
  destruct t as [|c rest].
  - rewrite append_nil_r. destruct n as [|n].
    + cbn [Py.mul]. now rewrite !append_nil_r, !decode_loop_end.
    + now rewrite !decode_loop_prefix_cutoff by lia.
  - cbn [zero_free_head] in Ht.
    destruct (Nat.lt_ge_cases (String.length rest) n) as [Hlt|Hge].
    + now rewrite !decode_loop_offset_cutoff by assumption.
    + destruct (split_at rest n Hge) as (off & rest' & -> & Hoff).
      rewrite !decode_loop_step by assumption.
      destruct (Py.int2 ("1" ++ off)) as [x| |]; cbn [bind];
        [apply IH | reflexivity | reflexivity].
Qed.

(** Injectivity of decoding on bit strings. *)
Corollary gamma_decode_injective (s1 s2 : string) (l : list Z) :
  is_bits s1 = true -> is_bits s2 = true ->
  gamma_decode s1 = Return l -> gamma_decode s2 = Return l -> s1 = s2.
Proof.
  intros B1 B2 H1 H2.
  apply (decode_then_encode _ _ B1) in H1.
  apply (decode_then_encode _ _ B2) in H2. congruence.
Qed.

End Shared.

(** ** Properties of the codec *)

(** C1 -- Round trip.  For every list [l] of positive integers,
    [gamma_encode_list l] returns a stream that [gamma_decode] decodes to
    [l]; for every positive integer [x], [gamma_encode_number x] returns a
    stream that [gamma_decode] decodes to the one-element list [[x]]. *)
Theorem gamma_round_trip :
  (forall l : list Z,
      Forall (fun x => 1 <= x)%Z l ->
      exists s, gamma_encode_list l = Return s /\ gamma_decode s = Return l)
  /\
  (forall x : Z,
      (1 <= x)%Z ->
      exists s, gamma_encode_number x = Return s
                /\ gamma_decode s = Return [x]).
Proof.
  split.
  - intros l Hl. destruct (positives l Hl) as [ps ->].
    exists (String.concat "" (map code ps)).
    split; [apply gamma_encode_list_pos | apply encode_then_decode].
  - intros [|p|p] Hx; try lia.
    exists (code p). split; [apply gamma_encode_number_pos|].
    pose proof (encode_then_decode [p]) as H.
    cbn [map String.concat] in H. exact H.
Qed.

Lemma gamma_round_trip_witness :
  Forall (fun x => 1 <= x)%Z [1; 3; 5; 10]%Z
  /\ (exists s, gamma_encode_list [1; 3; 5; 10]%Z = Return s
                /\ gamma_decode s = Return [1; 3; 5; 10]%Z)
  /\ (1 <= 5)%Z
  /\ (exists s, gamma_encode_number 5 = Return s
                /\ gamma_decode s = Return [5%Z]).
Proof.
  assert (H : Forall (fun x => 1 <= x)%Z [1; 3; 5; 10]%Z)
    by (repeat (apply Forall_cons; [lia|]); apply Forall_nil).
  assert (H5 : (1 <= 5)%Z) by lia.
  split; [exact H|]. split; [exact (proj1 gamma_round_trip _ H)|].
  split; [exact H5|]. exact (proj2 gamma_round_trip 5%Z H5).
Defined.

(** C2 -- The code of one number.  For every integer [x >= 1],
    [gamma_encode_number x] returns the gamma code of [x] as the
    specification words it: [N - 1] zero bits, a one bit, then the [N - 1]
    low-order bits of [x], where [N = floor(log2 x) + 1]; for [x = 1] this
    is the string "1". *)
Theorem gamma_encode_number_spec (x : Z) :
  (1 <= x)%Z -> gamma_encode_number x = Return (gamma_code_spec x).
Proof.
  destruct x as [|p|p]; intro Hx; try lia.
  rewrite gamma_encode_number_pos. f_equal. apply code_spec.
Qed.

Lemma gamma_encode_number_spec_witness :
  (1 <= 1)%Z /\ gamma_encode_number 1 = Return "1"
  /\ (1 <= 10)%Z /\ gamma_encode_number 10 = Return "0001010"
  /\ gamma_code_spec 10 = "0001010".
Proof.
  split; [lia|]. split; [apply (gamma_encode_number_spec 1); lia|].
  split; [lia|]. split; [apply (gamma_encode_number_spec 10); lia|].
  reflexivity.
Defined.

(** C3 -- Invalid input.  [gamma_encode_number x] raises the invalid-input
    error exactly when [x <= 0]; [gamma_encode_list] raises it, and so
    returns no output at all, as soon as one element of its list is not
    positive; on a list of positive integers it returns a stream. *)
Theorem gamma_encode_invalid_input :
  (forall x : Z, gamma_encode_number x = Raise InvalidInput <-> (x <= 0)%Z)
  /\
  (forall l : list Z,
      Exists (fun x => x <= 0)%Z l -> gamma_encode_list l = Raise InvalidInput)
  /\
  (forall pre post : list Z, forall x : Z,
      Forall (fun y => 1 <= y)%Z pre -> (x <= 0)%Z ->
      gamma_encode_list (pre ++ x :: post)%list = Raise InvalidInput)
  /\
  (forall l : list Z,
      Forall (fun x => 1 <= x)%Z l -> exists s, gamma_encode_list l = Return s).
Proof.
  assert (Hn : forall x, gamma_encode_number x = Raise InvalidInput
                         <-> (x <= 0)%Z).
  { intro x. split.
    - destruct x as [|p|p]; try lia.
      rewrite gamma_encode_number_pos. discriminate.
    - apply gamma_encode_number_nonpos. }
  assert (He : forall l, Exists (fun x => x <= 0)%Z l ->
                         encode_each l = Raise InvalidInput).
  { induction l as [|y l IH]; intro H; inversion H as [? ? Hy|? ? Hl]; subst;
      cbn [encode_each].
    - now rewrite gamma_encode_number_nonpos.
    - destruct y as [|p|p];
        [reflexivity | | reflexivity].
      rewrite gamma_encode_number_pos. cbn [bind]. now rewrite IH. }
  repeat split.
  - apply Hn.
  - apply Hn.
  - intros l H. unfold gamma_encode_list. now rewrite He.
  - intros pre post x _ Hx. unfold gamma_encode_list.
    rewrite He; [reflexivity|]. apply Exists_app. right. now left.
  - intros l Hl. destruct (positives l Hl) as [ps ->].
    eexists. apply gamma_encode_list_pos.
Qed.

Lemma gamma_encode_invalid_input_witness :
  gamma_encode_number 0 = Raise InvalidInput
  /\ gamma_encode_number (-5) = Raise InvalidInput
  /\ gamma_encode_list [1; 3; 0; 10; -5]%Z = Raise InvalidInput
  /\ gamma_encode_list ([1; 3] ++ 0 :: [10; 7])%list%Z = Raise InvalidInput
  /\ (exists s, gamma_encode_list [1; 3]%Z = Return s).
Proof.
  destruct gamma_encode_invalid_input as (Hn & Hl & He & Hp).
  split; [apply Hn; lia|]. split; [apply Hn; lia|].
  split; [apply Hl; do 2 apply Exists_cons_tl; apply Exists_cons_hd; lia|].
  split; [apply He; [repeat (apply Forall_cons; [lia|]); apply Forall_nil | lia]|].
  apply Hp. repeat (apply Forall_cons; [lia|]); apply Forall_nil.
Defined.

(** C4 -- Malformed streams.  [gamma_decode "000"] raises the prefix-cutoff
    error, [gamma_decode "0010"] raises the offset-cutoff error, and
    [gamma_decode ""] returns the empty list. *)
Theorem gamma_decode_errors :
  gamma_decode "000" = Raise PrefixCutoff
  /\ gamma_decode "0010" = Raise OffsetCutoff
  /\ gamma_decode "" = Return [].
Proof. repeat split; reflexivity. Qed.

(** C5 -- Prefix-freeness.  For positive integers [x <> y], the code of
    [x] is not a prefix of the code of [y]. *)
Theorem gamma_prefix_free (x y : Z) :
  (1 <= x)%Z -> (1 <= y)%Z -> x <> y ->
  exists cx cy,
    gamma_encode_number x = Return cx
    /\ gamma_encode_number y = Return cy
    /\ String.prefix cx cy = false.
Proof.
  destruct x as [|p|p]; destruct y as [|q|q]; intros Hx Hy Hne; try lia.
  exists (code p), (code q). rewrite !gamma_encode_number_pos.
  repeat split.
  destruct (String.prefix (code p) (code q)) eqn:E; [|reflexivity].
  apply prefix_inv in E. destruct E as [b E].
  apply code_inj_prefix in E. congruence.
Qed.

Lemma gamma_prefix_free_witness :
  (1 <= 2)%Z /\ (1 <= 5)%Z /\ 2%Z <> 5%Z
  /\ exists cx cy,
       gamma_encode_number 2 = Return cx
       /\ gamma_encode_number 5 = Return cy
       /\ String.prefix cx cy = false.
Proof.
  split; [lia|]. split; [lia|]. split; [lia|].
  apply (gamma_prefix_free 2 5); lia.
Defined.

(** C6 -- Known vectors.  The codes of 5, 10 and 1 are "00101", "0001010"
    and "1"; the stream of [[1; 3; 5; 10]] is the concatenation of the codes
    of 1, 3, 5 and 10, and it decodes to [[1; 3; 5; 10]]. *)
Theorem gamma_known_vectors :
  gamma_encode_number 5 = Return "00101"
  /\ gamma_encode_number 10 = Return "0001010"
  /\ gamma_encode_number 1 = Return "1"
  /\ gamma_encode_list [1; 3; 5; 10]%Z
     = Return ("1" ++ "011" ++ "00101" ++ "0001010")
  /\ gamma_decode ("1" ++ "011" ++ "00101" ++ "0001010")
     = Return [1; 3; 5; 10]%Z.
Proof. repeat split; reflexivity. Qed.

(** C7 -- Code length.  For every positive integer [x] the code of [x] has
    [2 * floor(log2 x) + 1] characters; for 1, 2, 3, 4, 7, 8, 15, 16, 1023
    and 1024 these lengths are 1, 3, 3, 5, 5, 7, 7, 9, 19 and 21. *)
Theorem gamma_code_length :
  (forall x : Z,
      (1 <= x)%Z ->
      exists s, gamma_encode_number x = Return s
                /\ Z.of_nat (String.length s) = (2 * Z.log2 x + 1)%Z)
  /\
  map (fun x => match gamma_encode_number x with
                | Return s => Some (String.length s)
                | _ => None
                end)
      [1; 2; 3; 4; 7; 8; 15; 16; 1023; 1024]%Z
  = map Some [1; 3; 3; 5; 5; 7; 7; 9; 19; 21].
Proof.
  split; [|reflexivity].
  intros [|p|p] Hx; try lia.
  exists (code p). split; [apply gamma_encode_number_pos | apply length_code].
Qed.

Lemma gamma_code_length_witness :
  (1 <= 1024)%Z
  /\ exists s, gamma_encode_number 1024 = Return s
               /\ Z.of_nat (String.length s) = (2 * Z.log2 1024 + 1)%Z.
Proof.
  split; [lia|]. apply (proj1 gamma_code_length 1024%Z). lia.
Defined.

(** C8 -- Reverse round trip.  If [gamma_decode] returns the list [l] for a
    string [s] of the characters '0' and '1', then [gamma_encode_list l]
    returns [s]. *)
Theorem gamma_decode_encode (s : string) (l : list Z) :
  is_bits s = true -> gamma_decode s = Return l ->
  gamma_encode_list l = Return s.
Proof. apply decode_then_encode. Qed.

Lemma gamma_decode_encode_witness :
  is_bits "1011001010001010" = true
  /\ gamma_decode "1011001010001010" = Return [1; 3; 5; 10]%Z
  /\ gamma_encode_list [1; 3; 5; 10]%Z = Return "1011001010001010".
Proof.
  split; [reflexivity|]. split; [reflexivity|].
  apply (gamma_decode_encode "1011001010001010" [1; 3; 5; 10]%Z);
    reflexivity.
Defined.

(** C9 -- Decoder output domain.  Whenever [gamma_decode] returns a list,
    whatever the characters of the stream, every integer of the list is at
    least 1. *)
Theorem gamma_decode_lower (s : string) (l : list Z) :
  gamma_decode s = Return l -> Forall (fun x => 1 <= x)%Z l.
Proof. intro H. apply gamma_decode_parses in H. exact (parses_lower s l H). Qed.

Lemma gamma_decode_lower_witness :
  gamma_decode "01000011_1" = Return [2; 7]%Z
  /\ Forall (fun x => 1 <= x)%Z [2; 7]%Z.
Proof.
  split; [reflexivity|].
  apply (gamma_decode_lower "01000011_1" [2; 7]%Z). reflexivity.
Defined.

(** ** More on the decoder: one group, and what follows it *)

Section Groups.

Lemma bind_return (A : Type) (m : outcome A) : (x <- m ;; Return x) = m.
Proof. now destruct m. Qed.

Lemma gamma_decode_step (n : nat) (c : ascii) (off rest : string) :
  c <> "0"%char -> String.length off = n ->
  gamma_decode (Py.mul "0" n ++ String c (off ++ rest))
  = x <- Py.int2 ("1" ++ off) ;;
    decode_loop (String.length (Py.mul "0" n ++ String c (off ++ rest)))
      ((Py.mul "0" n ++ String c off) ++ rest)
      (String.length (Py.mul "0" n ++ String c off)) [x].
Proof.
  intros Hc Hoff. unfold gamma_decode.
  exact (decode_loop_step _ "" n c off rest [] Hc Hoff).
Qed.

Lemma gamma_decode_zeros (n : nat) :
  0 < n -> gamma_decode (Py.mul "0" n) = Raise PrefixCutoff.
Proof.
  intro Hn. unfold gamma_decode.
  exact (decode_loop_prefix_cutoff _ "" n [] Hn).
Qed.

Lemma gamma_decode_short (n : nat) (c : ascii) (rest : string) :
  c <> "0"%char -> String.length rest < n ->
  gamma_decode (Py.mul "0" n ++ String c rest) = Raise OffsetCutoff.
Proof.
  intros Hc Hn. unfold gamma_decode.
  exact (decode_loop_offset_cutoff _ "" n c rest [] Hc Hn).
Qed.

(** The outer loop, started anywhere with any list and enough fuel, does
    what [gamma_decode] does on the rest of the stream. *)
Lemma decode_loop_gamma_decode (k : nat) :
  forall suf : string,
    String.length suf <= k ->
    forall (fuel : nat) (pre : string) (acc : list Z),
      String.length suf < fuel ->
      decode_loop fuel (pre ++ suf) (String.length pre) acc
      = l <- gamma_decode suf ;; Return (acc ++ l)%list.
Proof.
  induction k as [|k IH]; intros suf Hk [|fuel] pre acc Hf; try lia.
  - destruct suf; [|cbn [String.length] in Hk; lia].
    rewrite append_nil_r, decode_loop_end. cbn. now rewrite app_nil_r.
  - destruct (zeros_then_rest suf) as (n & t & -> & Ht).
    destruct t as [|c rest].
    + rewrite append_nil_r. destruct n as [|n].
      * cbn [Py.mul]. rewrite append_nil_r, decode_loop_end. cbn.
        now rewrite app_nil_r.
      * now rewrite decode_loop_prefix_cutoff, gamma_decode_zeros by lia.
    + cbn [zero_free_head] in Ht.
      destruct (Nat.lt_ge_cases (String.length rest) n) as [Hlt|Hge].
      * now rewrite decode_loop_offset_cutoff, gamma_decode_short
          by assumption.
      * destruct (split_at rest n Hge) as (off & rest' & -> & Hoff).
        rewrite !length_append, length_mul_0 in Hk, Hf.
        cbn [String.length] in Hk, Hf. rewrite length_append in Hk, Hf.
        rewrite decode_loop_step, gamma_decode_step by assumption.
        destruct (Py.int2 ("1" ++ off)) as [x| |]; cbn [bind];
          [|reflexivity|reflexivity].
        rewrite (IH rest') by lia.
        rewrite (IH rest').
        -- destruct (gamma_decode rest'); cbn [bind];
             [|reflexivity|reflexivity].
           now rewrite <- app_assoc.
        -- lia.
        -- rewrite !length_append, length_mul_0. cbn [String.length].
           rewrite length_append. lia.
Qed.

Lemma parses_append_decode (s : string) (l : list Z) :
  parses s l ->
  forall t : string,
    gamma_decode (s ++ t) = l' <- gamma_decode t ;; Return (l ++ l')%list.
Proof.
  induction 1 as [|n c off rest x l Hc Hoff Hint _ IH]; intro t.
  - cbn. now rewrite bind_return.
  - rewrite append_assoc.
    change (String c (off ++ rest) ++ t) with (String c ((off ++ rest) ++ t)).
    rewrite append_assoc, gamma_decode_step, Hint by assumption.
    cbn [bind].
    rewrite (decode_loop_gamma_decode (String.length (rest ++ t)))
      by (rewrite ?length_append, ?length_mul_0; cbn [String.length];
          rewrite ?length_append; lia).
    rewrite IH. destruct (gamma_decode t); reflexivity.
Qed.

Lemma encode_each_lower (l : list Z) (cs : list string) :
  encode_each l = Return cs -> Forall (fun x => 1 <= x)%Z l.
Proof.
  revert cs. induction l as [|x l IH]; intros cs H; [constructor|].
  cbn [encode_each] in H. destruct x as [|p|p]; try discriminate.
  rewrite gamma_encode_number_pos in H. cbn [bind] in H.
  destruct (encode_each l) as [cs'| |]; try discriminate.
  constructor; [lia | now apply (IH cs')].
Qed.

Lemma gamma_encode_list_inv (l : list Z) (s : string) :
  gamma_encode_list l = Return s ->
  exists ps, l = map Zpos ps /\ s = String.concat "" (map code ps).
Proof.
  intro H. unfold gamma_encode_list in H.
  destruct (encode_each l) as [cs| |] eqn:E; try discriminate.
  destruct (positives l (encode_each_lower l cs E)) as [ps ->].
  exists ps. split; [reflexivity|].
  rewrite encode_each_pos in E. injection E as <-. now injection H as <-.
Qed.

Lemma is_bits_codes (ps : list positive) :
  is_bits (String.concat "" (map code ps)) = true.
Proof.
  induction ps as [|p ps IH]; [reflexivity|].
  cbn [map]. now rewrite concat_cons, is_bits_append, is_bits_code, IH.
Qed.

Lemma concat_app (a b : list string) :
  String.concat "" (a ++ b) = String.concat "" a ++ String.concat "" b.
Proof.
  induction a as [|x a IH]; [reflexivity|].
  rewrite <- app_comm_cons, !concat_cons, IH, append_assoc. reflexivity.
Qed.

Lemma length_codes (ps : list positive) :
  Z.of_nat (String.length (String.concat "" (map code ps)))
  = fold_right Z.add 0%Z (map (fun x => 2 * Z.log2 x + 1)%Z (map Zpos ps)).
Proof.
  induction ps as [|p ps IH]; [reflexivity|].
  cbn [map fold_right].
  rewrite concat_cons, length_append, Nat2Z.inj_add, IH, length_code.
  reflexivity.
Qed.

(** On a string of bits the decoder returns or stops on a cutoff. *)
Lemma gamma_decode_bits_cases (k : nat) :
  forall s : string,
    String.length s <= k -> is_bits s = true ->
    (exists l, gamma_decode s = Return l)
    \/ gamma_decode s = Raise PrefixCutoff
    \/ gamma_decode s = Raise OffsetCutoff.
Proof.
  induction k as [|k IH]; intros s Hk Hb.
  - destruct s; [|cbn [String.length] in Hk; lia]. left. now exists [].
  - destruct (zeros_then_rest s) as (n & t & -> & Ht).
    destruct t as [|c rest].
    + rewrite append_nil_r. destruct n as [|n].
      * left. now exists [].
      * right. left. apply gamma_decode_zeros. lia.
    + cbn [zero_free_head] in Ht.
      destruct (Nat.lt_ge_cases (String.length rest) n) as [Hlt|Hge].
      * right. right. now apply gamma_decode_short.
      * destruct (split_at rest n Hge) as (off & rest' & -> & Hoff).
        rewrite is_bits_append in Hb. cbn [is_bits] in Hb.
        rewrite is_bits_append in Hb.
        apply andb_prop in Hb. destruct Hb as [_ Hb].
        apply andb_prop in Hb. destruct Hb as [_ Hb].
        apply andb_prop in Hb. destruct Hb as [Ho Hr].
        rewrite !length_append, length_mul_0 in Hk.
        cbn [String.length] in Hk. rewrite length_append in Hk.
        rewrite gamma_decode_step, int2_bits by assumption. cbn [bind].
        rewrite (decode_loop_gamma_decode (String.length rest'))
          by (rewrite ?length_append, ?length_mul_0; cbn [String.length];
              rewrite ?length_append; lia).
        destruct (IH rest') as [[l E]|[E|E]]; try assumption; try lia;
          rewrite E; cbn [bind]; eauto.
Qed.

(** [int] rejects a literal with a character that is no binary digit, no
    underscore and no white space. *)
Lemma int_digits_reject (a : string) (d : ascii) (b : string) :
  Py.digit2 d = None -> d <> "_"%char -> Py.isspace d = false ->
  forall (acc : Z) (nd : nat) (u : bool),
    Py.int_digits (a ++ String d b) acc nd u = None.
Proof.
  intros Hd Hu Hs.
  assert (Hall : forall s, Py.all_space (s ++ String d b) = false).
  { induction s as [|c s IHs]; cbn [append Py.all_space].
    - now rewrite Hs.
    - now rewrite IHs, andb_false_r. }
  induction a as [|c a IH]; intros acc nd u; cbn [append Py.int_digits].
  - apply Ascii.eqb_neq in Hu. rewrite Hu, Hd.
    destruct (u || (nd =? 0)%nat); [reflexivity|].
    pose proof (Hall "") as H0. cbn [append] in H0. now rewrite H0.
  - destruct (c =? "_")%char; [destruct u; [reflexivity | apply IH]|].
    destruct (Py.digit2 c); [apply IH|].
    destruct (u || (nd =? 0)%nat); [reflexivity|].
    pose proof (Hall (String c a)) as H0. cbn [append] in H0.
    now rewrite H0.
Qed.

(** In the first group a character other than '0' ends the zeros as '1'
    does. *)
Lemma gamma_decode_first_terminator (c : ascii) (n : nat)
  (off rest : string) :
  c <> "0"%char -> String.length off = n ->
  gamma_decode (Py.mul "0" n ++ String c (off ++ rest))
  = gamma_decode (Py.mul "0" n ++ String "1" (off ++ rest)).
Proof.
  intros Hc Hoff. unfold gamma_decode.
  rewrite !length_append. cbn [String.length].
  rewrite (decode_loop_step _ "" n c off rest []) by assumption.
  rewrite (decode_loop_step _ "" n "1" off rest [])
    by (discriminate || assumption).
  destruct (Py.int2 ("1" ++ off)) as [x| |]; cbn [bind];
    [apply decode_loop_suffix | reflexivity | reflexivity].
Qed.


End Groups.

(** C10 -- No character validation.  [gamma_decode] does not check that the
    stream holds only '0' and '1': it takes any character other than '0' for
    the bit that ends a prefix.  [gamma_decode "2"] returns [[1]]; and in
    any group of the stream, the first one or one that follows groups the
    decoder has accepted, a character other than '0' at the end of the
    zeros decodes as '1' does in its place. *)
Theorem gamma_decode_any_terminator :
  gamma_decode "2" = Return [1%Z]
  /\
  (forall (s : string) (l : list Z) (c : ascii) (n : nat)
          (off rest : string),
      gamma_decode s = Return l ->
      c <> "0"%char -> String.length off = n ->
      gamma_decode (s ++ Py.mul "0" n ++ String c (off ++ rest))
      = gamma_decode (s ++ Py.mul "0" n ++ String "1" (off ++ rest))).
Proof.
  split; [reflexivity|].
  intros s l c n off rest H Hc Hoff. apply gamma_decode_parses in H.
  rewrite !(parses_append_decode s l H). f_equal.
  now apply gamma_decode_first_terminator.
Qed.

Lemma gamma_decode_any_terminator_witness :
  gamma_decode "1" = Return [1%Z] /\ "2"%char <> "0"%char
  /\ gamma_decode "12" = gamma_decode "11"
  /\ gamma_decode "12" = Return [1; 1]%Z
  /\ gamma_decode "011" = Return [3%Z]
  /\ gamma_decode "01100201" = gamma_decode "01100101"
  /\ gamma_decode "01100201" = Return [3; 5]%Z.
Proof.
  assert (H : "2"%char <> "0"%char) by discriminate.
  split; [reflexivity|]. split; [exact H|].
  split;
    [exact (proj2 gamma_decode_any_terminator
              "1" [1%Z] "2"%char 0 "" "" eq_refl H eq_refl)|].
  split; [reflexivity|]. split; [reflexivity|].
  split; [|reflexivity].
  exact (proj2 gamma_decode_any_terminator
           "011" [3%Z] "2"%char 2 "01" "" eq_refl H eq_refl).
Defined.

Section Lists.

Lemma encode_each_app (l1 l2 : list Z) :
  encode_each (l1 ++ l2)
  = c1 <- encode_each l1 ;; c2 <- encode_each l2 ;; Return (c1 ++ c2)%list.
Proof.
  induction l1 as [|x l1 IH]; cbn [app encode_each bind].
  - now rewrite bind_return.
  - destruct (gamma_encode_number x); cbn [bind]; try reflexivity.
    rewrite IH. destruct (encode_each l1); cbn [bind]; try reflexivity.
    destruct (encode_each l2); reflexivity.
Qed.

Lemma parses_count (s : string) (l : list Z) :
  parses s l -> List.length l <= String.length s.
Proof.
  induction 1 as [|n c off rest x l _ _ _ _ IH]; [apply Nat.le_refl|].
  rewrite length_append. cbn [List.length String.length].
  rewrite length_append. lia.
Qed.

Lemma parses_group (n : nat) (c : ascii) (off : string) :
  c <> "0"%char -> is_bits off = true -> String.length off = n ->
  parses (Py.mul "0" n ++ String c off) [Zpos (pos_value 1 off)].
Proof.
  intros Hc Hb Hoff. rewrite <- (append_nil_r off) at 1.
  apply parses_cons; [assumption | assumption | | constructor].
  now apply int2_bits.
Qed.

End Lists.

(** ** Further properties of the codec *)

(** X1 -- Decoding a concatenation.  If [gamma_decode] returns [l] for the
    stream [s], then on [s] followed by any stream [t] it does what it does
    on [t], with [l] put before the list it returns. *)
Theorem gamma_decode_append (s t : string) (l : list Z) :
  gamma_decode s = Return l ->
  gamma_decode (s ++ t) = l' <- gamma_decode t ;; Return (l ++ l')%list.
Proof.
  intro H. apply gamma_decode_parses in H. now apply parses_append_decode.
Qed.

Lemma gamma_decode_append_witness :
  gamma_decode "010" = Return [2%Z]
  /\ gamma_decode ("010" ++ "00101011")
     = l' <- gamma_decode "00101011" ;; Return ([2%Z] ++ l')%list.
Proof.
  split; [reflexivity|].
  apply (gamma_decode_append "010" "00101011" [2%Z]). reflexivity.
Defined.

(** X2 -- Encoding a concatenation.  [gamma_encode_list] on [l1 ++ l2]
    returns the stream of [l1] followed by the stream of [l2], and raises
    when one of the two raises. *)
Theorem gamma_encode_list_app (l1 l2 : list Z) :
  gamma_encode_list (l1 ++ l2)
  = s1 <- gamma_encode_list l1 ;;
    s2 <- gamma_encode_list l2 ;;
    Return (s1 ++ s2).
Proof.
  unfold gamma_encode_list. rewrite encode_each_app.
  destruct (encode_each l1); cbn [bind]; try reflexivity.
  destruct (encode_each l2); cbn [bind]; try reflexivity.
  now rewrite concat_app.
Qed.

(** X3 -- The encoder writes bits only.  Every string that
    [gamma_encode_number] or [gamma_encode_list] returns is made of the
    characters '0' and '1'. *)
Theorem gamma_encode_bits :
  (forall (x : Z) (s : string),
      gamma_encode_number x = Return s -> is_bits s = true)
  /\
  (forall (l : list Z) (s : string),
      gamma_encode_list l = Return s -> is_bits s = true).
Proof.
  split.
  - intros [|p|p] s H; try discriminate.
    rewrite gamma_encode_number_pos in H. injection H as <-.
    apply is_bits_code.
  - intros l s H. destruct (gamma_encode_list_inv l s H) as (ps & -> & ->).
    apply is_bits_codes.
Qed.

Lemma gamma_encode_bits_witness :
  gamma_encode_number 10 = Return "0001010" /\ is_bits "0001010" = true
  /\ gamma_encode_list [1; 3; 5]%Z = Return "101100101"
  /\ is_bits "101100101" = true.
Proof.
  split; [reflexivity|].
  split; [apply (proj1 gamma_encode_bits 10%Z); reflexivity|].
  split; [reflexivity|].
  apply (proj2 gamma_encode_bits [1; 3; 5]%Z). reflexivity.
Defined.

(** X4 -- Unique decodability.  Two lists for which [gamma_encode_list]
    returns the same stream are equal. *)
Theorem gamma_encode_list_injective (l1 l2 : list Z) (s : string) :
  gamma_encode_list l1 = Return s -> gamma_encode_list l2 = Return s ->
  l1 = l2.
Proof.
  intros H1 H2.
  destruct (gamma_encode_list_inv l1 s H1) as (ps1 & -> & E1).
  destruct (gamma_encode_list_inv l2 s H2) as (ps2 & -> & E2).
  pose proof (encode_then_decode ps1) as D1.
  pose proof (encode_then_decode ps2) as D2.
  rewrite <- E1 in D1. rewrite <- E2 in D2. congruence.
Qed.

Lemma gamma_encode_list_injective_witness :
  gamma_encode_list [2; 1]%Z = Return "0101"
  /\ [2; 1]%Z = [2; 1]%Z.
Proof.
  split; [reflexivity|].
  apply (gamma_encode_list_injective [2; 1]%Z [2; 1]%Z "0101"); reflexivity.
Defined.

(** X5 -- Length of a stream.  The stream that [gamma_encode_list] returns
    for [l] has as many characters as the sum of [2 * floor(log2 x) + 1]
    over the elements [x] of [l]. *)
Theorem gamma_encode_list_length (l : list Z) (s : string) :
  gamma_encode_list l = Return s ->
  Z.of_nat (String.length s)
  = fold_right Z.add 0%Z (map (fun x => 2 * Z.log2 x + 1)%Z l).
Proof.
  intro H. destruct (gamma_encode_list_inv l s H) as (ps & -> & ->).
  apply length_codes.
Qed.

Lemma gamma_encode_list_length_witness :
  gamma_encode_list [1; 3; 5; 10]%Z = Return "1011001010001010"
  /\ Z.of_nat (String.length "1011001010001010") = 16%Z.
Proof.
  split; [reflexivity|].
  apply (gamma_encode_list_length [1; 3; 5; 10]%Z "1011001010001010").
  reflexivity.
Defined.

(** X6 -- Outcomes on bits.  On a string of the characters '0' and '1'
    [gamma_decode] returns a list or raises one of its two cutoff errors;
    [int] never rejects the literal it is given. *)
Theorem gamma_decode_bits_outcome (s : string) :
  is_bits s = true ->
  (exists l, gamma_decode s = Return l)
  \/ gamma_decode s = Raise PrefixCutoff
  \/ gamma_decode s = Raise OffsetCutoff.
Proof. apply (gamma_decode_bits_cases (String.length s)), Nat.le_refl. Qed.

Lemma gamma_decode_bits_outcome_witness :
  is_bits "1010010" = true
  /\ ((exists l, gamma_decode "1010010" = Return l)
      \/ gamma_decode "1010010" = Raise PrefixCutoff
      \/ gamma_decode "1010010" = Raise OffsetCutoff).
Proof.
  split; [reflexivity|]. apply (gamma_decode_bits_outcome "1010010").
  reflexivity.
Defined.

(** X7 -- Truncated streams.  When [gamma_encode_list l] returns a stream
    and [a] is a beginning of that stream, [gamma_decode a] returns a
    beginning of [l] (the rest of the stream decoding to the rest of [l]) or
    raises a cutoff error; it returns no number that is not in [l]. *)
Theorem gamma_decode_truncated (l : list Z) (a b : string) :
  gamma_encode_list l = Return (a ++ b) ->
  (exists l1 l2,
      gamma_decode a = Return l1 /\ gamma_decode b = Return l2
      /\ l = (l1 ++ l2)%list)
  \/ gamma_decode a = Raise PrefixCutoff
  \/ gamma_decode a = Raise OffsetCutoff.
Proof.
  intro H. destruct (gamma_encode_list_inv l _ H) as (ps & -> & E).
  assert (Hb : is_bits a = true).
  { pose proof (is_bits_codes ps) as B. rewrite <- E, is_bits_append in B.
    now apply andb_prop in B. }
  pose proof (encode_then_decode ps) as D. rewrite <- E in D.
  destruct (gamma_decode_bits_cases _ a (Nat.le_refl _) Hb) as [[l1 Ha]|Hc];
    [left | right; exact Hc].
  apply gamma_decode_parses in Ha.
  rewrite (parses_append_decode a l1 Ha) in D.
  destruct (gamma_decode b) as [l2| |]; cbn [bind] in D; try discriminate.
  injection D as D. exists l1, l2. apply gamma_decode_parses in Ha. auto.
Qed.

Lemma gamma_decode_truncated_witness :
  gamma_encode_list [1; 3; 5; 10]%Z = Return ("1011" ++ "001010001010")
  /\ ((exists l1 l2,
          gamma_decode "1011" = Return l1
          /\ gamma_decode "001010001010" = Return l2
          /\ [1; 3; 5; 10]%Z = (l1 ++ l2)%list)
      \/ gamma_decode "1011" = Raise PrefixCutoff
      \/ gamma_decode "1011" = Raise OffsetCutoff).
Proof.
  split; [reflexivity|].
  apply (gamma_decode_truncated [1; 3; 5; 10]%Z "1011" "001010001010").
  reflexivity.
Defined.

(** X8 -- Zeros at the end.  After a stream that [gamma_decode] accepts,
    one or more '0' characters with nothing behind them make it raise the
    prefix-cutoff error: the decoder does not drop them. *)
Theorem gamma_decode_trailing_zeros (s : string) (l : list Z) (n : nat) :
  gamma_decode s = Return l -> 0 < n ->
  gamma_decode (s ++ Py.mul "0" n) = Raise PrefixCutoff.
Proof.
  intros H Hn. apply gamma_decode_parses in H.
  now rewrite (parses_append_decode s l H), gamma_decode_zeros.
Qed.

Lemma gamma_decode_trailing_zeros_witness :
  gamma_decode "011" = Return [3%Z] /\ 0 < 2
  /\ gamma_decode ("011" ++ Py.mul "0" 2) = Raise PrefixCutoff.
Proof.
  split; [reflexivity|]. split; [lia|].
  apply (gamma_decode_trailing_zeros "011" [3%Z] 2); [reflexivity | lia].
Defined.

(** X9 -- A short last group.  After a stream that [gamma_decode] accepts,
    a group of [n] zeros and a terminator followed by fewer than [n]
    characters makes it raise the offset-cutoff error. *)
Theorem gamma_decode_short_offset (s : string) (l : list Z) (n : nat)
  (c : ascii) (off : string) :
  gamma_decode s = Return l -> c <> "0"%char -> String.length off < n ->
  gamma_decode (s ++ Py.mul "0" n ++ String c off) = Raise OffsetCutoff.
Proof.
  intros H Hc Hn. apply gamma_decode_parses in H.
  now rewrite (parses_append_decode s l H), gamma_decode_short.
Qed.

Lemma gamma_decode_short_offset_witness :
  gamma_decode "011" = Return [3%Z] /\ "1"%char <> "0"%char
  /\ String.length "10" < 3
  /\ gamma_decode ("011" ++ Py.mul "0" 3 ++ String "1" "10")
     = Raise OffsetCutoff.
Proof.
  assert (Hc : "1"%char <> "0"%char) by discriminate.
  assert (Hn : String.length "10" < 3) by (cbn; lia).
  split; [reflexivity|]. split; [exact Hc|]. split; [exact Hn|].
  exact (gamma_decode_short_offset "011" [3%Z] 3 "1" "10" eq_refl Hc Hn).
Defined.

(** X10 -- The value of a group.  A group of [n] zeros, a terminator and
    [n] bits decodes to one number [v] with [2^n <= v < 2^(n+1)]. *)
Theorem gamma_decode_group_range (n : nat) (c : ascii) (off : string) :
  c <> "0"%char -> is_bits off = true -> String.length off = n ->
  exists v : Z,
    gamma_decode (Py.mul "0" n ++ String c off) = Return [v]
    /\ (2 ^ Z.of_nat n <= v < 2 ^ (Z.of_nat n + 1))%Z.
Proof.
  intros Hc Hb Hoff. exists (Zpos (pos_value 1 off)). split.
  - now apply gamma_decode_parses, parses_group.
  - pose proof (length_tail_digits (pos_value 1 off)) as L.
    rewrite (tail_digits_pos_value off Hb), Hoff in L. rewrite L.
    apply Z.log2_spec. lia.
Qed.

Lemma gamma_decode_group_range_witness :
  "1"%char <> "0"%char /\ is_bits "010" = true /\ String.length "010" = 3
  /\ exists v : Z,
       gamma_decode (Py.mul "0" 3 ++ String "1" "010") = Return [v]
       /\ (2 ^ Z.of_nat 3 <= v < 2 ^ (Z.of_nat 3 + 1))%Z.
Proof.
  assert (Hc : "1"%char <> "0"%char) by discriminate.
  split; [exact Hc|]. split; [reflexivity|]. split; [reflexivity|].
  exact (gamma_decode_group_range 3 "1" "010" Hc eq_refl eq_refl).
Defined.

(** X11 -- Longer codes for larger numbers.  For [1 <= x <= y] the code of
    [x] is not longer than the code of [y]. *)
Theorem gamma_code_length_mono (x y : Z) :
  (1 <= x)%Z -> (x <= y)%Z ->
  exists sx sy,
    gamma_encode_number x = Return sx
    /\ gamma_encode_number y = Return sy
    /\ String.length sx <= String.length sy.
Proof.
  destruct x as [|p|p]; destruct y as [|q|q]; intros Hx Hy; try lia.
  exists (code p), (code q). rewrite !gamma_encode_number_pos.
  repeat split.
  pose proof (length_code p) as Lp. pose proof (length_code q) as Lq.
  pose proof (Z.log2_le_mono _ _ Hy). lia.
Qed.

Lemma gamma_code_length_mono_witness :
  (1 <= 7)%Z /\ (7 <= 8)%Z
  /\ exists sx sy,
       gamma_encode_number 7 = Return sx
       /\ gamma_encode_number 8 = Return sy
       /\ String.length sx <= String.length sy.
Proof.
  split; [lia|]. split; [lia|]. apply (gamma_code_length_mono 7 8); lia.
Defined.

(** X12 -- A character [int] rejects.  In a stream of characters with code
    points below 256, after a part that [gamma_decode] accepts, a group
    whose offset holds a character that is none of '0', '1' and '_' and
    none of the white space of [Py.isspace] makes [gamma_decode] raise the
    error of [int], whatever follows the group.  (Beyond code point 255
    there are further digits and spaces that [int] reads; streams with
    them are outside [string].) *)
Theorem gamma_decode_invalid_literal (s : string) (l : list Z) (n : nat)
  (c d : ascii) (a b rest : string) :
  gamma_decode s = Return l ->
  c <> "0"%char -> String.length (a ++ String d b) = n ->
  d <> "0"%char -> d <> "1"%char -> d <> "_"%char -> Py.isspace d = false ->
  gamma_decode (s ++ Py.mul "0" n ++ String c ((a ++ String d b) ++ rest))
  = Raise InvalidLiteral.
Proof.
  intros H Hc Hn H0 H1 Hu Hs. apply gamma_decode_parses in H.
  rewrite (parses_append_decode s l H), gamma_decode_step by assumption.
  change ("1" ++ a ++ String d b) with (String "1" (a ++ String d b)).
  rewrite int2_1, int_digits_reject; [reflexivity | | assumption..].
  unfold Py.digit2. apply Ascii.eqb_neq in H0, H1. now rewrite H0, H1.
Qed.

Lemma gamma_decode_invalid_literal_witness :
  gamma_decode "011" = Return [3%Z]
  /\ gamma_decode ("011" ++ Py.mul "0" 2 ++ String "1" (("1" ++ String "2" "")
                                                        ++ "1"))
     = Raise InvalidLiteral.
Proof.
  split; [reflexivity|].
  apply (gamma_decode_invalid_literal "011" [3%Z] 2 "1" "2" "1" "" "1");
    (reflexivity || discriminate).
Defined.

(** X13 -- Termination.  On a stream of [k] characters, the loops of
    [gamma_decode] end within [k + 1] rounds: with any larger number of
    rounds allowed the outer loop gives the same outcome, and that outcome is
    a returned list or a raised error. *)
Theorem gamma_decode_terminates (s : string) (fuel : nat) :
  String.length s < fuel ->
  decode_loop fuel s 0 [] = gamma_decode s /\ gamma_decode s <> OutOfFuel.
Proof.
  intro Hf. split.
  - pose proof (decode_loop_gamma_decode _ s (Nat.le_refl _) fuel "" [] Hf)
      as E.
    cbn [append String.length app] in E. rewrite E. apply bind_return.
  - apply (decode_loop_total _ "" s []). lia.
Qed.

Lemma gamma_decode_terminates_witness :
  String.length "0010" < 40
  /\ decode_loop 40 "0010" 0 [] = gamma_decode "0010"
  /\ gamma_decode "0010" <> OutOfFuel.
Proof.
  assert (H : String.length "0010" < 40) by (cbn; lia).
  split; [exact H|]. exact (gamma_decode_terminates "0010" 40 H).
Defined.

(** X14 -- No more numbers than characters.  A list that [gamma_decode]
    returns has at most as many elements as the stream has characters. *)
Theorem gamma_decode_count (s : string) (l : list Z) :
  gamma_decode s = Return l -> List.length l <= String.length s.
Proof. intro H. apply gamma_decode_parses in H. now apply parses_count. Qed.

Lemma gamma_decode_count_witness :
  gamma_decode "11010" = Return [1; 1; 2]%Z
  /\ List.length [1; 1; 2]%Z <= String.length "11010".
Proof.
  split; [reflexivity|].
  apply (gamma_decode_count "11010" [1; 1; 2]%Z). reflexivity.
Defined.

Section Underscore.

Lemma int_digits_bits_then (a t : string) (q : positive) (nd : nat) :
  is_bits a = true ->
  Py.int_digits (a ++ t) (Zpos q) (S nd) false
  = Py.int_digits t (Zpos (pos_value q a)) (S (nd + String.length a)) false.
Proof.
  revert q nd. induction a as [|c a IH]; intros q nd H.
  - cbn [append pos_value String.length]. now rewrite Nat.add_0_r.
  - cbn [is_bits] in H. apply andb_prop in H. destruct H as [Hc Hs].
    cbn [append String.length]. rewrite Nat.add_succ_r.
    destruct (Ascii.eqb_spec c "0") as [->|H0].
    + apply (IH (xO q) (S nd) Hs).
    + destruct (Ascii.eqb_spec c "1") as [->|H1]; [|discriminate].
      apply (IH (xI q) (S nd) Hs).
Qed.

Lemma int2_underscore (a : string) (c : ascii) (b : string) :
  is_bits a = true -> is_bits (String c b) = true ->
  Py.int2 ("1" ++ a ++ String "_" (String c b))
  = Return (Zpos (pos_value 1 (a ++ String c b))).
Proof.
  intros Ha Hb. change ("1" ++ a ++ String "_" (String c b))
    with (String "1" (a ++ String "_" (String c b))).
  rewrite int2_1, int_digits_bits_then by exact Ha.
  rewrite pos_value_append.
  cbn [is_bits] in Hb. apply andb_prop in Hb. destruct Hb as [Hc Hb].
  destruct (Ascii.eqb_spec c "0") as [->|H0].
  - cbn. now rewrite (int_digits_bits b _ _ Hb).
  - destruct (Ascii.eqb_spec c "1") as [->|H1]; [|discriminate].
    cbn. now rewrite (int_digits_bits b _ _ Hb).
Qed.

End Underscore.

(** X15 -- The streams of the encoder.  A string is returned by
    [gamma_encode_list] for some list exactly when it is made of the
    characters '0' and '1' and [gamma_decode] returns a list for it. *)
Theorem gamma_encode_list_image (s : string) :
  (exists l, gamma_encode_list l = Return s)
  <-> (is_bits s = true /\ exists l, gamma_decode s = Return l).
Proof.
  split.
  - intros [l H]. destruct (gamma_encode_list_inv l s H) as (ps & -> & ->).
    split; [apply is_bits_codes|].
    exists (map Zpos ps). apply encode_then_decode.
  - intros [Hb [l H]]. exists l. now apply decode_then_encode.
Qed.

(** X16 -- An underscore in the offset.  A group whose offset is made of
    bits with one underscore between two of them is accepted, since [int]
    takes the underscore for a digit separator: [gamma_decode] returns one
    number, and with [n] the number of zeros of the group that number is
    below [2^n], not the number whose code the group would be. *)
Theorem gamma_decode_underscore (a : string) (c : ascii) (b : string)
  (n : nat) :
  is_bits a = true -> is_bits (String c b) = true ->
  String.length (a ++ String "_" (String c b)) = n ->
  exists v : Z,
    gamma_decode (Py.mul "0" n ++ String "1" (a ++ String "_" (String c b)))
    = Return [v]
    /\ (1 <= v < 2 ^ Z.of_nat n)%Z.
Proof.
  intros Ha Hb Hn. exists (Zpos (pos_value 1 (a ++ String c b))). split.
  - apply gamma_decode_parses.
    rewrite <- (append_nil_r (a ++ String "_" (String c b))).
    apply parses_cons; [discriminate | exact Hn | | constructor].
    now apply int2_underscore.
  - assert (Hab : is_bits (a ++ String c b) = true)
      by (rewrite is_bits_append, Ha; exact Hb).
    pose proof (length_tail_digits (pos_value 1 (a ++ String c b))) as L.
    rewrite (tail_digits_pos_value _ Hab) in L.
    rewrite length_append in L, Hn. cbn [String.length] in L, Hn.
    pose proof (Z.log2_spec (Zpos (pos_value 1 (a ++ String c b)))
                  ltac:(lia)) as [_ Hlt].
    rewrite <- L in Hlt.
    replace (Z.succ (Z.of_nat (String.length a + S (String.length b))))
      with (Z.of_nat n) in Hlt by lia.
    lia.
Qed.

Lemma gamma_decode_underscore_witness :
  is_bits "1" = true /\ is_bits (String "1" "") = true
  /\ String.length ("1" ++ String "_" (String "1" "")) = 3
  /\ exists v : Z,
       gamma_decode (Py.mul "0" 3
                     ++ String "1" ("1" ++ String "_" (String "1" "")))
       = Return [v]
       /\ (1 <= v < 2 ^ Z.of_nat 3)%Z.
Proof.
  split; [reflexivity|]. split; [reflexivity|]. split; [reflexivity|].
  exact (gamma_decode_underscore "1" "1" "" 3 eq_refl eq_refl eq_refl).
Defined.
